(** * Flow editor: node factory, node registry and drag-and-drop glue

    Shallow embedding of [src/components/Nodes/nodeFactory.js], of the
    [Flow] component's event handlers and of the palette block's
    [dragHandler].

    JavaScript values are embedded as the inductive [value]; the module
    state of [nodeFactory.js] (the two factory closures held by
    [nodeCreator], each with its private [id] counter) is threaded
    explicitly.  The counter is a JavaScript number that only ever holds
    positive integers; it is embedded as [N], which agrees with the
    number arithmetic of the runtime for the first 2^53 creations of a
    factory. *)

From Stdlib Require Import NArith ZArith Strings.Ascii Strings.String.
From Stdlib Require Import Numbers.DecimalString Numbers.DecimalN.
From stdpp Require Import base option list gmap strings.

Local Open Scope string_scope.

(** ** JavaScript values *)

(** The settings components imported from [MessageNode] and [SelectNode]:
    React function components, opaque to this development. *)
Inductive component :=
| MessageNodeSettings
| SelectNodeSettings.

#[warnings="-register-all"]
Inductive value :=
| VUndefined
| VNull
| VBool (b : bool)
  (** an integral number *)
| VNumber (n : Z)
| VString (s : string)
| VObject (fields : list (string * value))
  (** [target.bind(this, args...)] *)
| VBound (target : component) (this : value) (args : list value).

(** ToBoolean. *)
Definition truthy (v : value) : bool :=
  match v with
  | VUndefined | VNull => false
  | VBool b => b
  | VNumber n => negb (n =? 0)%Z
  | VString s => negb (s =? "")
  | VObject _ | VBound _ _ _ => true
  end.

(** Property read [o.k] on a plain data object: [undefined] when the
    property is absent or the receiver carries no such data. *)
Fixpoint assoc (k : string) (fields : list (string * value)) : value :=
  match fields with
  | [] => VUndefined
  | (k', v) :: rest => if k' =? k then v else assoc k rest
  end.

Definition get (v : value) (k : string) : value :=
  match v with
  | VObject fields => assoc k fields
  | _ => VUndefined
  end.

(** Number-to-string conversion of a counter value, as done by a template
    literal: the decimal numeral. *)
Definition toString (n : N) : string :=
  NilEmpty.string_of_uint (N.to_uint n).

(** ** nodeFactory *)

(** The closure returned by [nodeFactory]: the three captured arguments
    and the captured mutable counter [id].  ([defaults] is a constant of
    the closure and is inlined in [create].) *)
Record Factory := {
  identifier : string;
  settings : component;
  dataComposer : string → value;
  id : N;
}.

Definition nodeFactory (identifier : string) (settings : component)
    (dataComposer : string → value) : Factory :=
  {| identifier := identifier; settings := settings;
     dataComposer := dataComposer; id := 1 |}.

(** [const getNodeId = () => `${identifier}_${id++}`] *)
Definition getNodeId (f : Factory) : string * Factory :=
  (identifier f +:+ "_" +:+ toString (id f),
   {| identifier := identifier f; settings := settings f;
      dataComposer := dataComposer f; id := id f + 1 |}).

(** The node creator [position => {...}] of a factory. *)
Definition create (f : Factory) (position : value) : value * Factory :=
  let '(nodeId, f') := getNodeId f in
  (VObject [ ("draggable", VBool true);
             ("selectable", VBool true);
             ("id", VString nodeId);
             ("type", VString (identifier f));
             ("position", position);
             ("data", dataComposer f nodeId);
             ("settingsRenderer",
              VBound (settings f) VNull [VObject [("nodeId", VString nodeId)]]) ],
   f').

(** The nodes a factory produces when its creator is called once for
    each of the given positions, in order, and the factory afterwards. *)
Fixpoint produce (f : Factory) (positions : list value) : list value * Factory :=
  match positions with
  | [] => ([], f)
  | position :: rest =>
      let '(node, f') := create f position in
      let '(more, f'') := produce f' rest in
      (node :: more, f'')
  end.

(** ** Completions *)

Inductive error :=
  (** [new Error(message)] *)
| Error (message : string)
  (** a [TypeError] raised by the runtime *)
| TypeError.

Inductive completion :=
| Return (v : value)
| Throw (e : error)
  (** The call was dispatched to the named member of [Object.prototype]
      with [nodeCreator] as receiver and the position as argument; what
      that member returns or throws is not part of the embedding. *)
| Native (member : string).

(** The properties of [Object.prototype], which every object literal
    inherits.  Each of them reads as a truthy value. *)
Definition objectPrototype : list string :=
  [ "constructor"; "__defineGetter__"; "__defineSetter__"; "hasOwnProperty";
    "__lookupGetter__"; "__lookupSetter__"; "isPrototypeOf";
    "propertyIsEnumerable"; "toString"; "valueOf"; "__proto__";
    "toLocaleString" ].

(** What a property read [nodeCreator[key]] finds. *)
Inductive property :=
| Closure (f : Factory)
| Inherited (member : string).

(** [nodeCreator[key]], where [nc] holds the own properties of the
    literal: [None] is [undefined]. *)
Definition getProperty (nc : gmap string Factory) (key : string) : option property :=
  match nc !! key with
  | Some f => Some (Closure f)
  | None =>
      if bool_decide (key ∈ objectPrototype) then Some (Inherited key) else None
  end.

(** Calling the own property [key], whose value is the closure [f]: the
    closure's counter advances. *)
Definition call (key : string) (f : Factory) (position : value)
    (nc : gmap string Factory) : completion * gmap string Factory :=
  let '(node, f') := create f position in
  (Return node, <[key := f']> nc).

(** [nodeCreator[key](position)] for the property found under [key]. *)
Definition invoke (key : string) (p : property) (position : value)
    (nc : gmap string Factory) : completion * gmap string Factory :=
  match p with
  | Closure f => call key f position nc
  | Inherited member =>
      if member =? "toString" then (Return (VString "[object Object]"), nc)
      else if member =? "toLocaleString" then
        (* Object.prototype.toLocaleString returns [this.toString()] *)
        match getProperty nc "toString" with
        | Some (Closure f) => call "toString" f VUndefined nc
        | _ => (Return (VString "[object Object]"), nc)
        end
      else if member =? "__proto__" then
        (* the accessor yields Object.prototype, which is not callable *)
        (Throw TypeError, nc)
      else if (member =? "__defineGetter__") || (member =? "__defineSetter__") then
        (* the second argument is undefined, hence not callable *)
        (Throw TypeError, nc)
      else (Native member, nc)
  end.

(** [createNode(type, position)].  The type argument is a string or is
    missing ([None], i.e. [undefined]). *)
Definition createNode (type : option string) (position : value)
    (nc : gmap string Factory) : completion * gmap string Factory :=
  match type with
  | None => (Throw (Error "Node type is required"), nc)
  | Some type =>
      if type =? "" then (Throw (Error "Node type is required"), nc)
      else if negb (truthy position) then
        (Throw (Error "Node position is required"), nc)
      else
        match getProperty nc type with
        | None => (Throw (Error ("Node type: " +:+ type +:+ " is not supported")), nc)
        | Some p => invoke type p position nc
        end
  end.

(** A sequence of [createNode] calls, each given by its two arguments:
    the completions in call order, and the closures afterwards. *)
Fixpoint run (calls : list (option string * value)) (nc : gmap string Factory)
    : list completion * gmap string Factory :=
  match calls with
  | [] => ([], nc)
  | (type, position) :: rest =>
      let '(c, nc') := createNode type position nc in
      let '(cs, nc'') := run rest nc' in
      (c :: cs, nc'')
  end.

(** The id of a returned node record, if the completion returned one. *)
Definition returnedId (c : completion) : option string :=
  match c with
  | Return node =>
      match get node "id" with
      | VString nodeId => Some nodeId
      | _ => None
      end
  | _ => None
  end.

(** Two closures of [nodeFactory] that differ at most in their counter. *)
Definition same_closure (f g : Factory) : Prop :=
  identifier f = identifier g ∧ settings f = settings g ∧
  dataComposer f = dataComposer g.

(** Every id handed out so far lies below the counter of the closure
    that made it. *)
Definition issued (nc : gmap string Factory) (ids : list string) : Prop :=
  ∀ s, s ∈ ids →
    ∃ k f n, nc !! k = Some f ∧ s = k +:+ "_" +:+ toString n ∧ (n < id f)%N.

(** Whether the character [c] occurs in [s]. *)
Fixpoint occurs (c : ascii) (s : string) : bool :=
  match s with
  | EmptyString => false
  | String c' s' => Ascii.eqb c c' || occurs c s'
  end.

Section Registry.

(** The identifiers exported by [MessageNode] and [SelectNode]. *)
Variables MESSAGE_NODE_IDENTIFIER SELECT_NODE_IDENTIFIER : string.

Definition messageNodeFactory : Factory :=
  nodeFactory MESSAGE_NODE_IDENTIFIER MessageNodeSettings
    (λ nodeId, VObject [("message", VString ("Default message for " +:+ nodeId))]).

Definition selectNodeFactory : Factory :=
  nodeFactory SELECT_NODE_IDENTIFIER SelectNodeSettings
    (λ _, VObject [("item", VNull)]).

(** The own properties of the object literal [nodeCreator] when the
    module is loaded.  The second computed key is defined last. *)
Definition nodeCreator : gmap string Factory :=
  <[SELECT_NODE_IDENTIFIER := selectNodeFactory]>
    (<[MESSAGE_NODE_IDENTIFIER := messageNodeFactory]> ∅).

(** Every own property of [nodeCreator] stays the closure it was at load
    time, up to its counter. *)
Definition evolved (nc : gmap string Factory) : Prop :=
  ∀ k, option_Forall2 same_closure (nc !! k) (nodeCreator !! k).

(** The states of the closures that calls of [createNode], the only
    export of the module, can lead to. *)
Inductive reachable : gmap string Factory → Prop :=
| reachable_init : reachable nodeCreator
| reachable_createNode type position nc :
    reachable nc → reachable (createNode type position nc).2.

End Registry.

(** ** The state store *)

(** The hooks [useNodeStore] and [useEdgeStore] come from
    [@/hooks/useStore]; the store holds the nodes, the edges and the
    currently selected node ([null] when there is none). *)
Record Store := {
  nodes : list value;
  selectedNode : value;
  edges : list value;
}.

(** Modelled from the spec: [addNode] of the node store, whose source is
    not part of the files at hand.  The new node is appended to the nodes
    held by the store. *)
Definition addNode (node : value) (s : Store) : Store :=
  {| nodes := nodes s ++ [node]; selectedNode := selectedNode s; edges := edges s |}.

(** Modelled from the spec: [setNodes] of the node store, whose source is
    not part of the files at hand.  It replaces the nodes held by the
    store. *)
Definition setNodes (updates : list value) (s : Store) : Store :=
  {| nodes := updates; selectedNode := selectedNode s; edges := edges s |}.

(** Modelled from the spec: [setSelectedNode] of the node store, whose
    source is not part of the files at hand.  It replaces the currently
    selected node. *)
Definition setSelectedNode (node : value) (s : Store) : Store :=
  {| nodes := nodes s; selectedNode := node; edges := edges s |}.

(** Modelled from the spec: [setEdges] of the edge store, whose source is
    not part of the files at hand.  It replaces the edges held by the
    store. *)
Definition setEdges (updates : list value) (s : Store) : Store :=
  {| nodes := nodes s; selectedNode := selectedNode s; edges := updates |}.

(** ** Drag events *)

(** The drag data store behind [event.dataTransfer]: one string per
    format, and the two effect attributes. *)
Record DataTransfer := {
  items : gmap string string;
  effectAllowed : string;
  dropEffect : string;
}.

(** [dataTransfer.getData(format)]: the empty string when the format
    holds no data. *)
Definition getData (format : string) (dt : DataTransfer) : string :=
  default "" (items dt !! format).

Definition setData (format data : string) (dt : DataTransfer) : DataTransfer :=
  {| items := <[format := data]> (items dt);
     effectAllowed := effectAllowed dt; dropEffect := dropEffect dt |}.

Record DragEvent := {
  dataTransfer : DataTransfer;
  clientX : value;
  clientY : value;
  defaultPrevented : bool;
}.

(** [reactFlowWrapper.current.getBoundingClientRect()] *)
Record DOMRect := {
  left : value;
  top : value;
}.

(** ** The application *)

(** The mutable state the handlers act on: the closures of
    [nodeFactory.js] and the store. *)
Record App := {
  registry : gmap string Factory;
  store : Store;
}.

(** How a handler ends: normally, by an exception that leaves the state
    as shown, or inside a member of [Object.prototype] (see [Native]):
    what the member returns would then go on to [addNode], and neither
    that value nor the state it leaves is part of the embedding. *)
Inductive handled :=
| Handled (app : App)
| Raised (e : error) (app : App)
| Escaped (member : string).

(** The selected node a handler leaves behind, where it ends in the
    embedded code. *)
Definition selectedAfter (h : handled) : option value :=
  match h with
  | Handled app | Raised _ app => Some (selectedNode (store app))
  | Escaped _ => None
  end.

Section Flow.

(** [DATA_TRANSFER_TYPE] of [@/constants/nodes] and, in the earlier
    revision of [Flow], [DATA_TRANSFER_MIME_TYPE] of [@/constants/utils]. *)
Variables DATA_TRANSFER_TYPE DATA_TRANSFER_MIME_TYPE : string.

(** From the graph library: [reactFlowInstance.project],
    [applyNodeChanges] and [addEdge]; and the subtraction of two numbers
    of the runtime. *)
Variable project : value → value.
Variable applyNodeChanges : list value → list value → list value.
Variable addEdge : value → list value → list value.
Variable minus : value → value → value.

(** [dragHandler] of the palette block [NodeBlockComposer], for the block
    of the given identifier. *)
Definition dragHandler (identifier : string) (event : DragEvent) : DragEvent :=
  let dt := setData DATA_TRANSFER_TYPE identifier (dataTransfer event) in
  {| dataTransfer :=
       {| items := items dt; effectAllowed := "move"; dropEffect := dropEffect dt |};
     clientX := clientX event; clientY := clientY event;
     defaultPrevented := defaultPrevented event |}.

Definition onDragOver (event : DragEvent) : DragEvent :=
  {| dataTransfer :=
       {| items := items (dataTransfer event);
          effectAllowed := effectAllowed (dataTransfer event);
          dropEffect := "move" |};
     clientX := clientX event; clientY := clientY event;
     defaultPrevented := true |}.

(** [onDragOver] in the earlier revision of [Flow], which asks for the
    drop effect [copy]. *)
Definition onDragOver_copy (event : DragEvent) : DragEvent :=
  {| dataTransfer :=
       {| items := items (dataTransfer event);
          effectAllowed := effectAllowed (dataTransfer event);
          dropEffect := "copy" |};
     clientX := clientX event; clientY := clientY event;
     defaultPrevented := true |}.

(** The position handed to [createNode] by [onDrop]. *)
Definition dropPosition (event : DragEvent) (reactFlowBounds : DOMRect) : value :=
  project (VObject [ ("x", minus (clientX event) (left reactFlowBounds));
                     ("y", minus (clientY event) (top reactFlowBounds)) ]).

(** The tail of [onDrop], shared by its two revisions: create the node
    and add it to the store. *)
Definition dropNode (type : string) (position : value) (app : App) : handled :=
  match createNode (Some type) position (registry app) with
  | (Return newNode, nc) => Handled {| registry := nc; store := addNode newNode (store app) |}
  | (Throw e, nc) => Raised e {| registry := nc; store := store app |}
  | (Native member, _) => Escaped member
  end.

(** [onDrop].  ([event.preventDefault()] only concerns the browser.) *)
Definition onDrop (event : DragEvent) (reactFlowBounds : DOMRect) (app : App) : handled :=
  let type := getData DATA_TRANSFER_TYPE (dataTransfer event) in
  if negb (truthy (VString type)) then Handled app
  else dropNode type (dropPosition event reactFlowBounds) app.

(** [onDrop] in the earlier revision of [Flow], which reads the format
    [DATA_TRANSFER_MIME_TYPE]. *)
Definition onDrop_mime (event : DragEvent) (reactFlowBounds : DOMRect) (app : App) : handled :=
  let nodeType := getData DATA_TRANSFER_MIME_TYPE (dataTransfer event) in
  if negb (truthy (VString nodeType)) then Handled app
  else dropNode nodeType (dropPosition event reactFlowBounds) app.

(** [onSelectionChange({ nodes })]: the graph library passes the array of
    the selected node objects. *)
Definition onSelectionChange (nodes : list (list (string * value))) (app : App) : App :=
  match nodes with
  | [] => app
  | first :: _ => {| registry := registry app; store := setSelectedNode (VObject first) (store app) |}
  end.

Definition onNodesDelete (app : App) : App :=
  {| registry := registry app; store := setSelectedNode VNull (store app) |}.

Definition onNodesChange (changes : list value) (app : App) : App :=
  let updates := applyNodeChanges changes (nodes (store app)) in
  {| registry := registry app; store := setNodes updates (store app) |}.

Definition onEdgesChange (changes : list value) (app : App) : App :=
  let updates := applyNodeChanges changes (edges (store app)) in
  {| registry := registry app; store := setEdges updates (store app) |}.

Definition onConnect (params : value) (app : App) : App :=
  {| registry := registry app; store := setEdges (addEdge params (edges (store app))) (store app) |}.

End Flow.

(** ** Sequences of calls and of drops *)

(** Whether a call of [createNode] passes both guards with the type [t]:
    the type argument is [t] and the position is truthy. *)
Definition creates (t : string) (call : option string * value) : bool :=
  match call with
  | (Some type, position) => (type =? t) && truthy position
  | (None, _) => false
  end.

(** How many of the calls do so. *)
Definition created (t : string) (calls : list (option string * value)) : N :=
  N.of_nat (length (List.filter (creates t) calls)).

(** The id of a stored node, if it is a record that carries one. *)
Definition idOf (node : value) : option string :=
  match get node "id" with
  | VString nodeId => Some nodeId
  | _ => None
  end.

Definition storedIds (s : Store) : list string := omap idOf (nodes s).

(** A sequence of drop events handled by [onDrop], each with the bounds
    of the wrapper at that time.  An exception thrown by the handler
    leaves the state to the next event.  The result is [None] once a
    drop leaves the embedded code (see [Escaped]): the later drops are
    still handled by the code, on a state that is not embedded. *)
Fixpoint drops (DATA_TRANSFER_TYPE : string) (project : value → value)
    (minus : value → value → value)
    (events : list (DragEvent * DOMRect)) (app : App) : option App :=
  match events with
  | [] => Some app
  | (event, reactFlowBounds) :: rest =>
      match onDrop DATA_TRANSFER_TYPE project minus event reactFlowBounds app with
      | Handled app' | Raised _ app' => drops DATA_TRANSFER_TYPE project minus rest app'
      | Escaped _ => None
      end
  end.

(** ** Concrete instances

    Concrete identifiers and library functions, at which the statements
    below are instantiated:
    the identifiers ["messageNode"] and ["selectNode"], the transfer
    format ["application/reactflow"], a [project] that copies the two
    coordinates, and subtraction of integral numbers. *)

Definition exampleRegistry : gmap string Factory :=
  nodeCreator "messageNode" "selectNode".

Definition examplePosition : value :=
  VObject [("x", VNumber 40); ("y", VNumber 20)].

Definition exampleProject (p : value) : value :=
  VObject [("x", get p "x"); ("y", get p "y")].

Definition exampleMinus (a b : value) : value :=
  match a, b with
  | VNumber x, VNumber y => VNumber (x - y)
  | _, _ => VUndefined
  end.

Definition exampleApp : App :=
  {| registry := exampleRegistry;
     store := {| nodes := []; selectedNode := VNull; edges := [] |} |}.

Definition exampleStart : DragEvent :=
  {| dataTransfer := {| items := ∅; effectAllowed := "uninitialized"; dropEffect := "none" |};
     clientX := VNumber 10; clientY := VNumber 10; defaultPrevented := false |}.

Definition exampleDrop : DragEvent :=
  {| dataTransfer :=
       {| items := {[ "application/reactflow" := "messageNode" ]};
          effectAllowed := "move"; dropEffect := "move" |};
     clientX := VNumber 140; clientY := VNumber 70; defaultPrevented := false |}.

Definition exampleBounds : DOMRect :=
  {| left := VNumber 100; top := VNumber 50 |}.

Definition exampleMessageNode : value :=
  VObject [ ("draggable", VBool true);
            ("selectable", VBool true);
            ("id", VString "messageNode_1");
            ("type", VString "messageNode");
            ("position", examplePosition);
            ("data", VObject [("message", VString "Default message for messageNode_1")]);
            ("settingsRenderer",
             VBound MessageNodeSettings VNull [VObject [("nodeId", VString "messageNode_1")]]) ].

(** A drop of something that is no node type, a sequence of calls with
    failures among them, and a sequence of drops. *)
Definition exampleForeignDrop : DragEvent :=
  {| dataTransfer :=
       {| items := {[ "application/reactflow" := "imageNode" ]};
          effectAllowed := "move"; dropEffect := "move" |};
     clientX := VNumber 200; clientY := VNumber 90; defaultPrevented := false |}.

Definition examplePositions : list value := replicate 12 examplePosition.

Definition exampleCalls : list (option string * value) :=
  [ (Some "messageNode", examplePosition);
    (Some "selectNode", examplePosition);
    (Some "messageNode", VNull);
    (Some "imageNode", examplePosition);
    (None, examplePosition);
    (Some "messageNode", examplePosition) ].

Definition exampleDrops : list (DragEvent * DOMRect) :=
  [ (exampleDrop, exampleBounds);
    (exampleForeignDrop, exampleBounds);
    (exampleStart, exampleBounds);
    (exampleDrop, exampleBounds) ].

(** * Properties *)

(** ** Generated ids *)

Lemma occurs_app c (a b : string) : occurs c (a +:+ String c b) = true.
Proof.
  induction a as [|x a IH]; simpl.
  - by rewrite Ascii.eqb_refl.
  - rewrite IH. apply orb_true_r.
Qed.

Lemma numeral_no_underscore d : occurs "_" (NilEmpty.string_of_uint d) = false.
Proof. induction d; simpl; auto. Qed.

Lemma toString_no_underscore n : occurs "_" (toString n) = false.
Proof. apply numeral_no_underscore. Qed.

Lemma toString_inj n m : toString n = toString m → n = m.
Proof.
  unfold toString. intros H.
  apply Unsigned.to_uint_inj.
  assert (Some (N.to_uint n) = Some (N.to_uint m)) as E
    by (rewrite <- !NilEmpty.usu; by rewrite H).
  by injection E.
Qed.

(** A string is cut in one way only at its last underscore. *)
Lemma cut_at_last_underscore (a b d e : string) :
  occurs "_" d = false → occurs "_" e = false →
  a +:+ String "_" d = b +:+ String "_" e → a = b ∧ d = e.
Proof.
  intros Hd He. revert b.
  induction a as [|x a IH]; intros [|y b]; simpl; intros H.
  - by injection H.
  - injection H as _ H. subst d. by rewrite occurs_app in Hd.
  - injection H as _ H. subst e. by rewrite occurs_app in He.
  - injection H as -> H. destruct (IH _ H) as [-> ->]. done.
Qed.

(** The id [`${identifier}_${id}`] determines both of its parts. *)
Lemma nodeId_inj (i j : string) (n m : N) :
  i +:+ "_" +:+ toString n = j +:+ "_" +:+ toString m → i = j ∧ n = m.
Proof.
  intros H.
  destruct (cut_at_last_underscore i j (toString n) (toString m)) as [-> E];
    auto using toString_no_underscore.
  split; [done | by apply toString_inj].
Qed.

(** ** The closures held by [nodeCreator] *)

Section RegistryFacts.

Variables MESSAGE_NODE_IDENTIFIER SELECT_NODE_IDENTIFIER : string.

Local Abbreviation MSG := MESSAGE_NODE_IDENTIFIER.
Local Abbreviation SEL := SELECT_NODE_IDENTIFIER.
Local Abbreviation loaded := (nodeCreator MSG SEL).
Local Abbreviation reachable' := (reachable MSG SEL).
Local Abbreviation evolved := (evolved MSG SEL).

#[local] Instance same_closure_refl : Reflexive same_closure.
Proof. by intros f. Qed.

Lemma same_closure_create f g position :
  same_closure f g → same_closure (create f position).2 g.
Proof. by intros (?&?&?). Qed.

Lemma nodeCreator_lookup k f :
  loaded !! k = Some f →
  (k = SEL ∧ f = selectNodeFactory SEL) ∨ (k = MSG ∧ k ≠ SEL ∧ f = messageNodeFactory MSG).
Proof.
  unfold nodeCreator. rewrite lookup_insert. case_decide as E.
  - intros [= <-]. by left.
  - rewrite lookup_insert. case_decide as E'; [|by rewrite lookup_empty].
    intros [= <-]. right. subst k. done.
Qed.

Lemma evolved_call nc key f position :
  evolved nc → nc !! key = Some f → evolved (call key f position nc).2.
Proof.
  intros Hnc Hf k. unfold call. simpl.
  rewrite lookup_insert. case_decide as E; [subst k|apply Hnc].
  specialize (Hnc key). rewrite Hf in Hnc.
  inversion Hnc as [? g Hfg|]; subst. constructor.
  by apply (same_closure_create _ _ position).
Qed.

(** A call of [createNode] either runs one own closure of [nodeCreator]
    or leaves all closures as they are and returns no node id. *)
Lemma createNode_cases type position nc :
  (∃ key f q, nc !! key = Some f ∧ createNode type position nc = call key f q nc) ∨
  ((createNode type position nc).2 = nc ∧ returnedId (createNode type position nc).1 = None).
Proof.
  unfold createNode.
  destruct type as [type|]; [|by right].
  destruct (type =? "")%string; [by right|].
  destruct (negb (truthy position)); [by right|].
  unfold getProperty.
  destruct (nc !! type) as [f|] eqn:Hf; simpl.
  { left. by exists type, f, position. }
  case_bool_decide; [|by right]. simpl.
  destruct (type =? "toString")%string; [by right|].
  destruct (type =? "toLocaleString")%string.
  { unfold getProperty. destruct (nc !! "toString") as [g|] eqn:Hg; simpl.
    - left. by exists "toString", g, VUndefined.
    - by right. }
  destruct (type =? "__proto__")%string; [by right|].
  destruct (orb (type =? "__defineGetter__") (type =? "__defineSetter__"))%string;
    by right.
Qed.

Lemma createNode_evolved type position nc :
  evolved nc → evolved (createNode type position nc).2.
Proof.
  intros Hnc.
  destruct (createNode_cases type position nc) as [(k&f&q&Hf&->)|[-> _]]; [|done].
  by apply evolved_call.
Qed.

Lemma reachable_evolved nc : reachable' nc → evolved nc.
Proof.
  induction 1 as [|type position nc _ IH].
  - intros k. reflexivity.
  - by apply createNode_evolved.
Qed.

(** In every reachable' state the registry holds a closure under each of
    the two identifiers, and nothing else. *)
Lemma reachable_lookup nc k :
  reachable' nc →
  match nc !! k with
  | Some f =>
      (k = SEL ∧ same_closure f (selectNodeFactory SEL)) ∨
      (k = MSG ∧ k ≠ SEL ∧ same_closure f (messageNodeFactory MSG))
  | None => k ≠ MSG ∧ k ≠ SEL
  end.
Proof.
  intros Hnc. pose proof (reachable_evolved nc Hnc k) as H.
  inversion H as [f g Hfg Ef Eg|Ef Eg].
  - symmetry in Eg. apply nodeCreator_lookup in Eg as [[-> ->]|(->&?&->)]; auto.
  - symmetry in Eg. unfold nodeCreator in Eg.
    apply lookup_insert_None in Eg as [Eg ?].
    apply lookup_insert_None in Eg as [_ ?]. done.
Qed.

Lemma reachable_supported nc type :
  reachable' nc → type = MSG ∨ type = SEL →
  ∃ f, nc !! type = Some f ∧ identifier f = type.
Proof.
  intros Hnc Ht. pose proof (reachable_lookup nc type Hnc) as H.
  destruct (nc !! type) as [f|].
  - exists f. split; [done|].
    destruct H as [[-> (E&_)]|(->&_&(E&_))]; by rewrite E.
  - destruct H, Ht; done.
Qed.

(** What [createNode] does for a type held by the registry. *)
Lemma createNode_own nc type f position :
  nc !! type = Some f → type ≠ "" → truthy position = true →
  createNode (Some type) position nc = call type f position nc.
Proof.
  intros Hf Hne Hp. unfold createNode, getProperty.
  apply String.eqb_neq in Hne. rewrite Hne, Hp, Hf. done.
Qed.

End RegistryFacts.

(** ** Node records built by [createNode] *)

Section NodeRecords.

Variables MESSAGE_NODE_IDENTIFIER SELECT_NODE_IDENTIFIER : string.

Local Abbreviation MSG := MESSAGE_NODE_IDENTIFIER.
Local Abbreviation SEL := SELECT_NODE_IDENTIFIER.
Local Abbreviation reachable' := (reachable MSG SEL).

(** Neither identifier is the empty string, and the two differ. *)
Hypothesis message_identifier_nonempty : MSG ≠ "".
Hypothesis select_identifier_nonempty : SEL ≠ "".
Hypothesis identifiers_distinct : MSG ≠ SEL.

(** A call for a supported type that returns has run the closure
    registered under that type. *)
Lemma createNode_returned type position nc node nc' :
  reachable' nc → type = MSG ∨ type = SEL →
  createNode (Some type) position nc = (Return node, nc') →
  ∃ f, nc !! type = Some f ∧ identifier f = type ∧
       node = (create f position).1 ∧ nc' = <[type := (create f position).2]> nc.
Proof.
  intros Hnc Ht.
  destruct (reachable_supported _ _ nc type Hnc Ht) as (f & Hf & Hid).
  unfold createNode, getProperty. rewrite Hf.
  destruct (type =? "")%string; [done|].
  destruct (negb (truthy position)); [done|].
  simpl. unfold call. simpl. intros [= <- <-]. by exists f.
Qed.

(** C1, as amended: for every supported type identifier and every truthy
    position, [createNode] returns the record that the closure registered
    under that identifier builds for the position; its [type] field is
    the identifier and its [position] field is the position given.  For
    a falsy position ([null], [undefined], [0], the empty string,
    [false]) it throws [Node position is required], returns no record
    and moves no counter. *)
Theorem createNode_supported type position nc :
  reachable' nc → type = MSG ∨ type = SEL →
  (truthy position = true →
   ∃ f, nc !! type = Some f ∧ identifier f = type ∧
        createNode (Some type) position nc
          = (Return (create f position).1, <[type := (create f position).2]> nc) ∧
        get (create f position).1 "type" = VString type ∧
        get (create f position).1 "position" = position) ∧
  (truthy position = false →
   createNode (Some type) position nc
     = (Throw (Error "Node position is required"), nc)) ∧
  (truthy VNull = false ∧ truthy VUndefined = false ∧ truthy (VNumber 0) = false ∧
   truthy (VString "") = false ∧ truthy (VBool false) = false).
Proof.
  intros Hnc Ht.
  assert (type ≠ "") as Hne by (by destruct Ht as [-> | ->]).
  split_and!; try reflexivity.
  - intros Hp.
    destruct (reachable_supported _ _ nc type Hnc Ht) as (f & Hf & Hid).
    exists f. split_and!; try done.
    + by apply createNode_own.
    + simpl. by rewrite Hid.
  - intros Hp. unfold createNode.
    apply String.eqb_neq in Hne. by rewrite Hne, Hp.
Qed.

(** C3: every node record returned by [createNode] for a supported type
    has [draggable] and [selectable] set to [true]. *)
Theorem created_node_flags type position nc node nc' :
  reachable' nc → type = MSG ∨ type = SEL →
  createNode (Some type) position nc = (Return node, nc') →
  get node "draggable" = VBool true ∧ get node "selectable" = VBool true.
Proof.
  intros Hnc Ht Hcall.
  destruct (createNode_returned _ _ _ _ _ Hnc Ht Hcall) as (f & _ & _ & -> & _).
  done.
Qed.

(** C4: the [data] field of a created message node is
    [{ message: "Default message for " + id }] for the node's own id, and
    that of a created select node is [{ item: null }]. *)
Theorem created_node_data type position nc node nc' :
  reachable' nc →
  createNode (Some type) position nc = (Return node, nc') →
  (type = MSG →
   ∃ nodeId, get node "id" = VString nodeId ∧
     get node "data" = VObject [("message", VString ("Default message for " +:+ nodeId))]) ∧
  (type = SEL → get node "data" = VObject [("item", VNull)]).
Proof.
  intros Hnc Hcall. split; intros ->.
  - destruct (createNode_returned _ _ _ _ _ Hnc (or_introl eq_refl) Hcall)
      as (f & Hf & _ & -> & _).
    pose proof (reachable_lookup _ _ nc MSG Hnc) as H. rewrite Hf in H.
    destruct H as [[? _]|(_ & _ & (_ & _ & Hdata))]; [done|].
    eexists. split; [reflexivity|]. simpl. by rewrite Hdata.
  - destruct (createNode_returned _ _ _ _ _ Hnc (or_intror eq_refl) Hcall)
      as (f & Hf & _ & -> & _).
    pose proof (reachable_lookup _ _ nc SEL Hnc) as H. rewrite Hf in H.
    destruct H as [[_ (_ & _ & Hdata)]|(_ & ? & _)]; [|done].
    simpl. by rewrite Hdata.
Qed.

(** C5: the [settingsRenderer] field of a returned node record is the
    settings component of the node's type bound to [null] and to the
    argument [{ nodeId }], where [nodeId] is the record's own id. *)
Theorem created_node_settingsRenderer type position nc node nc' :
  reachable' nc → type = MSG ∨ type = SEL →
  createNode (Some type) position nc = (Return node, nc') →
  ∃ nodeId target,
    get node "id" = VString nodeId ∧
    get node "settingsRenderer" = VBound target VNull [VObject [("nodeId", VString nodeId)]] ∧
    (type = MSG → target = MessageNodeSettings) ∧
    (type = SEL → target = SelectNodeSettings).
Proof.
  intros Hnc Ht Hcall.
  destruct (createNode_returned _ _ _ _ _ Hnc Ht Hcall) as (f & Hf & _ & -> & _).
  pose proof (reachable_lookup _ _ nc type Hnc) as H. rewrite Hf in H.
  eexists _, (settings f). split_and!; try reflexivity.
  - intros ->. by destruct H as [[? _]|(_ & _ & (_ & ? & _))].
  - intros ->. by destruct H as [[_ (_ & ? & _)]|(_ & ? & _)].
Qed.

(** C8, the input on which the guard for unsupported types is passed:
    [toString] is no key of the registry, yet [nodeCreator["toString"]]
    is truthy, so nothing is thrown and the text [[object Object]] is
    returned in place of a node record. *)
Theorem createNode_toString position nc :
  reachable' nc → MSG ≠ "toString" → SEL ≠ "toString" →
  truthy position = true →
  nc !! "toString" = None ∧
  createNode (Some "toString") position nc = (Return (VString "[object Object]"), nc).
Proof.
  intros Hnc Hm Hs Hp.
  pose proof (reachable_lookup _ _ nc "toString" Hnc) as H.
  destruct (nc !! "toString") as [f|] eqn:Hf.
  { by destruct H as [[? _]|(? & _)]. }
  split; [done|].
  unfold createNode, getProperty. simpl. by rewrite Hp, Hf.
Qed.

(** X1: the calls on which [createNode] throws one of its own three errors:
    a missing or empty type, else a falsy position, else a type that is
    found neither in the registry nor on its prototype chain. *)
Lemma createNode_error type position nc message :
  (createNode type position nc).1 = Throw (Error message) ↔
  match type with
  | None => message = "Node type is required"
  | Some type =>
      if (type =? "")%string then message = "Node type is required"
      else if negb (truthy position) then message = "Node position is required"
      else (nc !! type = None) ∧ (type ∉ objectPrototype) ∧
           (message = "Node type: " +:+ type +:+ " is not supported")
  end.
Proof.
  unfold createNode.
  destruct type as [type|]; [|simpl; split; [by intros [= <-]|by intros ->]].
  destruct (type =? "")%string; [simpl; split; [by intros [= <-]|by intros ->]|].
  destruct (negb (truthy position)); [simpl; split; [by intros [= <-]|by intros ->]|].
  unfold getProperty.
  destruct (nc !! type) as [f|] eqn:Hf; simpl.
  { split; [done|]. by intros [? _]. }
  case_bool_decide as Hin; simpl.
  - split; [|by intros (_ & ? & _)].
    destruct (type =? "toString")%string; [done|].
    destruct (type =? "toLocaleString")%string.
    { unfold getProperty. by destruct (nc !! "toString"). }
    destruct (type =? "__proto__")%string; [done|].
    by destruct (orb (type =? "__defineGetter__") (type =? "__defineSetter__"))%string.
  - split; [by intros [= <-]|by intros (_ & _ & ->)].
Qed.

End NodeRecords.

(** ** Sequential ids of one factory *)

Lemma produce_ids positions : ∀ f,
  (λ node, get node "id") <$> (produce f positions).1
    = (λ k, VString (identifier f +:+ "_" +:+ toString (id f + N.of_nat k)))
        <$> seq 0 (length positions) ∧
  id (produce f positions).2 = (id f + N.of_nat (length positions))%N ∧
  same_closure (produce f positions).2 f.
Proof.
  induction positions as [|position rest IH]; intros f.
  - simpl. split_and!; [done|lia|done].
  - cbn [produce]. destruct (create f position) as [node f'] eqn:Hc.
    injection Hc as <- <-.
    match goal with |- context [produce ?g rest] => specialize (IH g) end.
    destruct (produce _ rest) as [more f''].
    destruct IH as (IH1 & IH2 & IH3). cbn [fst snd] in *.
    split_and!.
    + cbn [fmap list_fmap length seq]. rewrite N.add_0_r. f_equal.
      fold (fmap (M:=list) (λ node, get node "id") more). rewrite IH1.
      rewrite <- fmap_S_seq, <- list_fmap_compose.
      apply list_fmap_ext. intros ? k ?. cbn.
      by replace (id f + 1 + N.of_nat k)%N with (id f + N.of_nat (S k))%N by lia.
    + rewrite IH2. cbn. lia.
    + destruct IH3 as (?&?&?). by split_and!.
Qed.

(** C2: the k-th node record that a factory made by [nodeFactory] for the
    identifier [I] produces has the id [I_k], counting from 1 and with
    [k] written as its decimal numeral (the standard library's
    [string_of_uint] of [N.to_uint k]): the counter starts at 1 and
    advances by one with every creation. *)
Theorem factory_ids_sequential (I : string) (settings : component)
    (dataComposer : string → value) (positions : list value) :
  id (nodeFactory I settings dataComposer) = 1%N ∧
  (λ node, get node "id") <$> (produce (nodeFactory I settings dataComposer) positions).1
    = (λ k, VString (I +:+ "_" +:+
                     NilEmpty.string_of_uint (N.to_uint (N.of_nat k))))
        <$> seq 1 (length positions) ∧
  id (produce (nodeFactory I settings dataComposer) positions).2
    = N.of_nat (1 + length positions).
Proof.
  destruct (produce_ids positions (nodeFactory I settings dataComposer))
    as (H1 & H2 & _).
  split_and!; [done| |rewrite H2; cbn; lia].
  rewrite H1, <- fmap_S_seq, <- list_fmap_compose.
  apply list_fmap_ext. intros ? k ?. cbn. unfold toString.
  by replace (1 + N.of_nat k)%N with (N.of_nat (S k)) by lia.
Qed.

(** ** Distinct ids across the registry *)

Section DistinctIds.

Variables MESSAGE_NODE_IDENTIFIER SELECT_NODE_IDENTIFIER : string.

Local Abbreviation MSG := MESSAGE_NODE_IDENTIFIER.
Local Abbreviation SEL := SELECT_NODE_IDENTIFIER.
Local Abbreviation loaded := (nodeCreator MSG SEL).
Local Abbreviation reachable' := (reachable MSG SEL).
Local Abbreviation evolved' := (evolved MSG SEL).

Lemma evolved_identifier nc k f :
  evolved' nc → nc !! k = Some f → identifier f = k.
Proof.
  intros Hnc Hf. specialize (Hnc k). rewrite Hf in Hnc.
  inversion Hnc as [? g (E & _) Ef Eg|]; subst. symmetry in Eg.
  apply nodeCreator_lookup in Eg as [[-> ->]|(-> & _ & ->)]; by rewrite E.
Qed.

Lemma call_fresh nc ids key f position :
  evolved' nc → issued nc ids → NoDup ids → nc !! key = Some f →
  ∃ s, returnedId (call key f position nc).1 = Some s ∧
       NoDup (ids ++ [s]) ∧ issued (call key f position nc).2 (ids ++ [s]).
Proof.
  intros Hnc Hids Hnd Hf.
  pose proof (evolved_identifier _ _ _ Hnc Hf) as Hid.
  exists (key +:+ "_" +:+ toString (id f)). unfold call. cbn. rewrite Hid.
  split_and!; [done| |].
  - apply NoDup_app. split_and!; [done| |apply NoDup_singleton].
    intros s Hs ->%list_elem_of_singleton.
    destruct (Hids _ Hs) as (k & g & n & Hg & E & Hn).
    apply nodeId_inj in E as [<- <-]. rewrite Hf in Hg. injection Hg as <-. lia.
  - intros s [Hs| ->%list_elem_of_singleton]%elem_of_app.
    + destruct (Hids _ Hs) as (k & g & n & Hg & E & Hn).
      destruct (decide (k = key)) as [->|Hne].
      * rewrite Hf in Hg. injection Hg as <-.
        eexists key, _, n. rewrite lookup_insert_eq. split_and!; [done..|cbn; lia].
      * exists k, g, n. by rewrite lookup_insert_ne.
    + eexists key, _, (id f). rewrite lookup_insert_eq. split_and!; [done..|cbn; lia].
Qed.


Lemma run_reachable calls : ∀ nc, reachable' nc → reachable' (run calls nc).2.
Proof.
  induction calls as [|[type position] rest IH]; intros nc Hnc; [done|].
  cbn [run]. pose proof (reachable_createNode _ _ type position nc Hnc) as H.
  destruct (createNode type position nc) as [c nc'].
  specialize (IH nc' H). by destruct (run rest nc').
Qed.


End DistinctIds.

(** ** Drag and drop, and the selected node *)

Section FlowFacts.

Variables MESSAGE_NODE_IDENTIFIER SELECT_NODE_IDENTIFIER : string.
Variables DATA_TRANSFER_TYPE DATA_TRANSFER_MIME_TYPE : string.
Variable project : value → value.
Variable applyNodeChanges : list value → list value → list value.
Variable addEdge : value → list value → list value.
Variable minus : value → value → value.

Local Abbreviation MSG := MESSAGE_NODE_IDENTIFIER.
Local Abbreviation SEL := SELECT_NODE_IDENTIFIER.
Local Abbreviation reachable' := (reachable MSG SEL).
Local Abbreviation dragHandler' := (dragHandler DATA_TRANSFER_TYPE).
Local Abbreviation dropPosition' := (dropPosition project minus).
Local Abbreviation onDrop' := (onDrop DATA_TRANSFER_TYPE project minus).
Local Abbreviation onDrop_mime' := (onDrop_mime DATA_TRANSFER_MIME_TYPE project minus).

(** Neither identifier is the empty string. *)
Hypothesis message_identifier_nonempty : MSG ≠ "".
Hypothesis select_identifier_nonempty : SEL ≠ "".

(** [project] of the graph library returns a position object. *)
Hypothesis project_object : ∀ p, ∃ fields, project p = VObject fields.

Lemma dropPosition_truthy event bounds : truthy (dropPosition' event bounds) = true.
Proof. unfold dropPosition. by destruct (project_object (VObject
  [("x", minus (clientX event) (left bounds)); ("y", minus (clientY event) (top bounds))]))
  as [fields ->]. Qed.

Lemma dropNode_supported type position app :
  reachable' (registry app) → type = MSG ∨ type = SEL → type ≠ "" →
  truthy position = true →
  ∃ node nc,
    createNode (Some type) position (registry app) = (Return node, nc) ∧
    get node "type" = VString type ∧
    dropNode type position app
      = Handled {| registry := nc;
                   store := {| nodes := nodes (store app) ++ [node];
                               selectedNode := selectedNode (store app);
                               edges := edges (store app) |} |}.
Proof.
  intros Hnc Ht Hne Hp.
  destruct (reachable_supported _ _ _ type Hnc Ht) as (f & Hf & Hid).
  pose proof (createNode_own _ _ _ position Hf Hne Hp) as E.
  unfold dropNode. rewrite E. unfold call. cbn.
  eexists _, _. split_and!; [done| |done]. by rewrite Hid.
Qed.

Lemma onDrop_nonempty type event bounds app :
  getData DATA_TRANSFER_TYPE (dataTransfer event) = type → type ≠ "" →
  onDrop' event bounds app = dropNode type (dropPosition' event bounds) app.
Proof.
  intros Hg Hne. unfold onDrop. rewrite Hg. cbn [truthy].
  apply String.eqb_neq in Hne. by rewrite Hne.
Qed.

Lemma onDrop_mime_nonempty type event bounds app :
  getData DATA_TRANSFER_MIME_TYPE (dataTransfer event) = type → type ≠ "" →
  onDrop_mime' event bounds app = dropNode type (dropPosition' event bounds) app.
Proof.
  intros Hg Hne. unfold onDrop_mime. rewrite Hg. cbn [truthy].
  apply String.eqb_neq in Hne. by rewrite Hne.
Qed.

(** C6: a drop whose data transfer carries a supported, non-empty type
    identifier appends one node to the store, the record [createNode]
    builds for that type at the projected drop position; the nodes that
    were in the store, the edges and the selected node stay as they
    were.  This holds for [onDrop] in both revisions of [Flow]. *)
Theorem onDrop_appends_node type event bounds app :
  reachable' (registry app) → type = MSG ∨ type = SEL → type ≠ "" →
  ∃ node nc,
    createNode (Some type) (dropPosition' event bounds) (registry app)
      = (Return node, nc) ∧
    let app' := {| registry := nc;
                   store := {| nodes := nodes (store app) ++ [node];
                               selectedNode := selectedNode (store app);
                               edges := edges (store app) |} |} in
    (getData DATA_TRANSFER_TYPE (dataTransfer event) = type →
     onDrop' event bounds app = Handled app') ∧
    (getData DATA_TRANSFER_MIME_TYPE (dataTransfer event) = type →
     onDrop_mime' event bounds app = Handled app').
Proof.
  intros Hnc Ht Hne.
  destruct (dropNode_supported type (dropPosition' event bounds) app Hnc Ht Hne
              (dropPosition_truthy event bounds)) as (node & nc & Hc & _ & Hd).
  exists node, nc. split; [done|]. cbn. split; intros Hg.
  - by rewrite (onDrop_nonempty type).
  - by rewrite (onDrop_mime_nonempty type).
Qed.

(** C7: the drag handler of the palette block of identifier [t] writes
    [t] itself into the data transfer; [onDrop], given the data written
    at drag start, reads [t] back and hands it to [createNode]; so for
    the block of a node type the node added to the store has the type
    field [t]. *)
Theorem drag_drop_roundtrip (t : string) (start drop : DragEvent) bounds app :
  reachable' (registry app) →
  items (dataTransfer drop) = items (dataTransfer (dragHandler' t start)) →
  items (dataTransfer (dragHandler' t start)) !! DATA_TRANSFER_TYPE = Some t ∧
  getData DATA_TRANSFER_TYPE (dataTransfer drop) = t ∧
  (t ≠ "" →
   onDrop' drop bounds app = dropNode t (dropPosition' drop bounds) app) ∧
  (t = MSG ∨ t = SEL →
   ∃ node nc,
     createNode (Some t) (dropPosition' drop bounds) (registry app) = (Return node, nc) ∧
     get node "type" = VString t ∧
     onDrop' drop bounds app
       = Handled {| registry := nc; store := addNode node (store app) |}).
Proof.
  intros Hnc Hitems.
  assert (items (dataTransfer (dragHandler' t start)) !! DATA_TRANSFER_TYPE = Some t)
    as Hw by (cbn; apply lookup_insert_eq).
  assert (getData DATA_TRANSFER_TYPE (dataTransfer drop) = t) as Hr
    by (unfold getData; by rewrite Hitems, Hw).
  split_and!; [done|done| |].
  - intros Hne. by apply onDrop_nonempty.
  - intros Ht.
    assert (t ≠ "") as Hne by (by destruct Ht as [-> | ->]).
    destruct (dropNode_supported t (dropPosition' drop bounds) app Hnc Ht Hne
                (dropPosition_truthy drop bounds)) as (node & nc & Hc & Hty & Hd).
    exists node, nc. split_and!; [done|done|].
    by rewrite (onDrop_nonempty t).
Qed.

Lemma dropNode_selected type position app :
  from_option (λ v, v = selectedNode (store app)) True
    (selectedAfter (dropNode type position app)).
Proof.
  unfold dropNode. by destruct (createNode _ _ _) as [[node|e|member] nc].
Qed.

(** C10: a selection change with a non-empty node list sets the selected
    node to the first node of the list, one with an empty list leaves
    it; [onNodesDelete] sets it to [null]; and no other handler of
    [Flow] changes it to [null]: those either leave it or, for a
    selection change, set it to a node object. *)
Theorem selectedNode_maintenance :
  (∀ first rest app,
     selectedNode (store (onSelectionChange (first :: rest) app)) = VObject first ∧
     VObject first ≠ VNull) ∧
  (∀ app, onSelectionChange [] app = app) ∧
  (∀ app, selectedNode (store (onNodesDelete app)) = VNull) ∧
  (∀ changes app,
     selectedNode (store (onNodesChange applyNodeChanges changes app))
       = selectedNode (store app)) ∧
  (∀ changes app,
     selectedNode (store (onEdgesChange applyNodeChanges changes app))
       = selectedNode (store app)) ∧
  (∀ params app,
     selectedNode (store (onConnect addEdge params app)) = selectedNode (store app)) ∧
  (∀ event bounds app,
     from_option (λ v, v = selectedNode (store app)) True
       (selectedAfter (onDrop' event bounds app)) ∧
     from_option (λ v, v = selectedNode (store app)) True
       (selectedAfter (onDrop_mime' event bounds app))).
Proof.
  split_and!; try done.
  intros event bounds app. unfold onDrop, onDrop_mime. split.
  - destruct (negb _); [done|apply dropNode_selected].
  - destruct (negb _); [done|apply dropNode_selected].
Qed.

End FlowFacts.

(** ** Instances *)

Lemma exampleProject_object p : ∃ fields, exampleProject p = VObject fields.
Proof. by eexists. Qed.

(** C1 as stated fails on a falsy position: for the supported type
    ["messageNode"] and the position [null], [createNode] throws and
    returns no record. *)
Lemma createNode_null_position :
  createNode (Some "messageNode") VNull exampleRegistry
    = (Throw (Error "Node position is required"), exampleRegistry) ∧
  ¬ ∃ node nc,
      createNode (Some "messageNode") VNull exampleRegistry = (Return node, nc).
Proof. split; [reflexivity|]. by intros (node & nc & H). Qed.

Lemma createNode_supported_witness :
  "messageNode" ≠ "" ∧ "selectNode" ≠ "" ∧
  reachable "messageNode" "selectNode" exampleRegistry ∧
  ("messageNode" = "messageNode" ∨ "messageNode" = "selectNode") ∧
  truthy examplePosition = true ∧
  truthy (VNumber 0) = false ∧
  (∃ f, exampleRegistry !! "messageNode" = Some f ∧ identifier f = "messageNode" ∧
        createNode (Some "messageNode") examplePosition exampleRegistry
          = (Return (create f examplePosition).1,
             <["messageNode" := (create f examplePosition).2]> exampleRegistry) ∧
        get (create f examplePosition).1 "type" = VString "messageNode" ∧
        get (create f examplePosition).1 "position" = examplePosition) ∧
  createNode (Some "messageNode") (VNumber 0) exampleRegistry
    = (Throw (Error "Node position is required"), exampleRegistry).
Proof.
  split_and!; [done|done|constructor|by left|reflexivity|reflexivity| |].
  - apply (createNode_supported "messageNode" "selectNode" ltac:(done) ltac:(done)
             "messageNode" examplePosition exampleRegistry);
      [constructor|by left|reflexivity].
  - apply (createNode_supported "messageNode" "selectNode" ltac:(done) ltac:(done)
             "messageNode" (VNumber 0) exampleRegistry);
      [constructor|by left|reflexivity].
Defined.

Lemma factory_ids_sequential_witness :
  (λ node, get node "id")
    <$> (produce (messageNodeFactory "messageNode") examplePositions).1
    = [ VString "messageNode_1"; VString "messageNode_2"; VString "messageNode_3";
        VString "messageNode_4"; VString "messageNode_5"; VString "messageNode_6";
        VString "messageNode_7"; VString "messageNode_8"; VString "messageNode_9";
        VString "messageNode_10"; VString "messageNode_11"; VString "messageNode_12" ] ∧
  id (produce (messageNodeFactory "messageNode") examplePositions).2 = 13%N.
Proof.
  destruct (factory_ids_sequential "messageNode" MessageNodeSettings
              (λ nodeId, VObject [("message", VString ("Default message for " +:+ nodeId))])
              examplePositions) as (_ & Hids & Hcounter).
  split; [exact Hids|exact Hcounter].
Defined.

Lemma created_node_flags_witness :
  reachable "messageNode" "selectNode" exampleRegistry ∧
  ("messageNode" = "messageNode" ∨ "messageNode" = "selectNode") ∧
  createNode (Some "messageNode") examplePosition exampleRegistry
    = (Return exampleMessageNode,
       (createNode (Some "messageNode") examplePosition exampleRegistry).2) ∧
  get exampleMessageNode "draggable" = VBool true ∧
  get exampleMessageNode "selectable" = VBool true.
Proof.
  split_and!; [constructor|by left|vm_compute; reflexivity|..];
    apply (created_node_flags "messageNode" "selectNode" "messageNode"
             examplePosition exampleRegistry exampleMessageNode
             (createNode (Some "messageNode") examplePosition exampleRegistry).2);
    [constructor|by left|vm_compute; reflexivity
    |constructor|by left|vm_compute; reflexivity].
Defined.

Lemma created_node_data_witness :
  "messageNode" ≠ "selectNode" ∧
  reachable "messageNode" "selectNode" exampleRegistry ∧
  createNode (Some "messageNode") examplePosition exampleRegistry
    = (Return exampleMessageNode,
       (createNode (Some "messageNode") examplePosition exampleRegistry).2) ∧
  ("messageNode" = "messageNode" →
   ∃ nodeId, get exampleMessageNode "id" = VString nodeId ∧
     get exampleMessageNode "data"
       = VObject [("message", VString ("Default message for " +:+ nodeId))]) ∧
  ("messageNode" = "selectNode" →
   get exampleMessageNode "data" = VObject [("item", VNull)]).
Proof.
  split_and!; [done|constructor|vm_compute; reflexivity|..];
    apply (created_node_data "messageNode" "selectNode" ltac:(done) "messageNode"
             examplePosition exampleRegistry exampleMessageNode
             (createNode (Some "messageNode") examplePosition exampleRegistry).2);
    [constructor|vm_compute; reflexivity|constructor|vm_compute; reflexivity].
Defined.

Lemma created_node_settingsRenderer_witness :
  "messageNode" ≠ "selectNode" ∧
  reachable "messageNode" "selectNode" exampleRegistry ∧
  ("messageNode" = "messageNode" ∨ "messageNode" = "selectNode") ∧
  createNode (Some "messageNode") examplePosition exampleRegistry
    = (Return exampleMessageNode,
       (createNode (Some "messageNode") examplePosition exampleRegistry).2) ∧
  ∃ nodeId target,
    get exampleMessageNode "id" = VString nodeId ∧
    get exampleMessageNode "settingsRenderer"
      = VBound target VNull [VObject [("nodeId", VString nodeId)]] ∧
    ("messageNode" = "messageNode" → target = MessageNodeSettings) ∧
    ("messageNode" = "selectNode" → target = SelectNodeSettings).
Proof.
  split_and!; [done|constructor|by left|vm_compute; reflexivity|].
  apply (created_node_settingsRenderer "messageNode" "selectNode" ltac:(done)
           "messageNode" examplePosition exampleRegistry exampleMessageNode
           (createNode (Some "messageNode") examplePosition exampleRegistry).2);
    [constructor|by left|vm_compute; reflexivity].
Defined.

Lemma createNode_toString_witness :
  reachable "messageNode" "selectNode" exampleRegistry ∧
  "messageNode" ≠ "toString" ∧ "selectNode" ≠ "toString" ∧
  truthy examplePosition = true ∧
  exampleRegistry !! "toString" = None ∧
  createNode (Some "toString") examplePosition exampleRegistry
    = (Return (VString "[object Object]"), exampleRegistry).
Proof.
  split_and!; [constructor|done|done|reflexivity|..];
    apply (createNode_toString "messageNode" "selectNode" examplePosition exampleRegistry);
    [constructor|done|done|reflexivity|constructor|done|done|reflexivity].
Defined.

Lemma onDrop_appends_node_witness :
  (∀ p, ∃ fields, exampleProject p = VObject fields) ∧
  reachable "messageNode" "selectNode" (registry exampleApp) ∧
  ("messageNode" = "messageNode" ∨ "messageNode" = "selectNode") ∧
  "messageNode" ≠ "" ∧
  ∃ node nc,
    createNode (Some "messageNode")
      (dropPosition exampleProject exampleMinus exampleDrop exampleBounds)
      (registry exampleApp) = (Return node, nc) ∧
    let app' := {| registry := nc;
                   store := {| nodes := nodes (store exampleApp) ++ [node];
                               selectedNode := selectedNode (store exampleApp);
                               edges := edges (store exampleApp) |} |} in
    (getData "application/reactflow" (dataTransfer exampleDrop) = "messageNode" →
     onDrop "application/reactflow" exampleProject exampleMinus
       exampleDrop exampleBounds exampleApp = Handled app') ∧
    (getData "application/reactflow" (dataTransfer exampleDrop) = "messageNode" →
     onDrop_mime "application/reactflow" exampleProject exampleMinus
       exampleDrop exampleBounds exampleApp = Handled app').
Proof.
  split_and!; [apply exampleProject_object|constructor|by left|done|].
  apply (onDrop_appends_node "messageNode" "selectNode" "application/reactflow"
           "application/reactflow" exampleProject exampleMinus exampleProject_object
           "messageNode" exampleDrop exampleBounds exampleApp);
    [constructor|by left|done].
Defined.

Lemma drag_drop_roundtrip_witness :
  "messageNode" ≠ "" ∧ "selectNode" ≠ "" ∧
  (∀ p, ∃ fields, exampleProject p = VObject fields) ∧
  reachable "messageNode" "selectNode" (registry exampleApp) ∧
  items (dataTransfer exampleDrop)
    = items (dataTransfer (dragHandler "application/reactflow" "messageNode" exampleStart)) ∧
  getData "application/reactflow" (dataTransfer exampleDrop) = "messageNode" ∧
  ∃ node nc,
    get node "type" = VString "messageNode" ∧
    onDrop "application/reactflow" exampleProject exampleMinus
      exampleDrop exampleBounds exampleApp
      = Handled {| registry := nc; store := addNode node (store exampleApp) |}.
Proof.
  assert (items (dataTransfer exampleDrop)
    = items (dataTransfer (dragHandler "application/reactflow" "messageNode" exampleStart)))
    as Hitems by reflexivity.
  destruct (drag_drop_roundtrip "messageNode" "selectNode" "application/reactflow"
              exampleProject exampleMinus ltac:(done) ltac:(done) exampleProject_object
              "messageNode" exampleStart exampleDrop exampleBounds exampleApp
              ltac:(constructor) Hitems) as (_ & Hread & _ & Hnode).
  destruct (Hnode (or_introl eq_refl)) as (node & nc & _ & Htype & Hdrop).
  split_and!; [done|done|apply exampleProject_object|constructor|done|done|].
  by exists node, nc.
Defined.


(** * Further properties *)

(** ** Failing calls, and the shape of ids *)

(** X2: a call of [createNode] that does not return, because it throws
    or because it ends in a member of [Object.prototype], leaves every
    closure of the registry, and so every counter, as it was. *)
Theorem createNode_failure_keeps_counters type position nc c nc' :
  createNode type position nc = (c, nc') →
  (∀ v, c ≠ Return v) →
  nc' = nc.
Proof.
  intros Hcall Hc.
  destruct (createNode_cases type position nc) as [(k & f & q & _ & E)|[E _]].
  - rewrite E in Hcall. unfold call in Hcall. cbn in Hcall.
    injection Hcall as <- _. by destruct (Hc _ eq_refl).
  - by rewrite Hcall in E.
Qed.

(** X3: the id [`${identifier}_${id}`] made by [getNodeId] determines
    both the identifier and the counter value, whatever characters the
    identifier holds: two closures hand out the same id only when they
    agree on both. *)
Theorem getNodeId_inj (f g : Factory) :
  (getNodeId f).1 = (getNodeId g).1 ↔ identifier f = identifier g ∧ id f = id g.
Proof.
  unfold getNodeId. cbn [fst]. split.
  - apply nodeId_inj.
  - by intros [-> ->].
Qed.

Section Counters.

Variables MESSAGE_NODE_IDENTIFIER SELECT_NODE_IDENTIFIER : string.

Local Abbreviation MSG := MESSAGE_NODE_IDENTIFIER.
Local Abbreviation SEL := SELECT_NODE_IDENTIFIER.
Local Abbreviation loaded := (nodeCreator MSG SEL).
Local Abbreviation reachable' := (reachable MSG SEL).

(** One call advances the counter registered under [t] exactly when it
    passes both guards with the type [t]. *)
Lemma createNode_counter t f type position nc :
  t ≠ "" → t ≠ "toString" → nc !! t = Some f →
  ∃ f', (createNode type position nc).2 !! t = Some f' ∧ same_closure f' f ∧
        id f' = (id f + if creates t (type, position) then 1 else 0)%N.
Proof.
  intros Hne Hts Hf.
  assert (∃ f', nc !! t = Some f' ∧ same_closure f' f ∧ id f' = (id f + 0)%N) as Hsame.
  { exists f. split_and!; [done|done|lia]. }
  unfold createNode, creates.
  destruct type as [type|]; [|done].
  destruct (type =? "")%string eqn:Hempty.
  { apply String.eqb_eq in Hempty as ->.
    by apply not_eq_sym, String.eqb_neq in Hne as ->. }
  destruct (truthy position); cbn [negb]; [|by rewrite andb_false_r].
  rewrite andb_true_r.
  destruct (type =? t)%string eqn:Ht.
  - apply String.eqb_eq in Ht as ->. unfold getProperty. rewrite Hf. cbn.
    rewrite lookup_insert_eq. eexists. split_and!; done.
  - apply String.eqb_neq in Ht. unfold getProperty.
    destruct (nc !! type) as [g|] eqn:Hg; cbn.
    { by rewrite lookup_insert_ne. }
    case_bool_decide; [|done]. cbn.
    destruct (type =? "toString")%string; [done|].
    destruct (type =? "toLocaleString")%string.
    { unfold getProperty. destruct (nc !! "toString") as [h|]; cbn.
      - by rewrite lookup_insert_ne.
      - by case_bool_decide. }
    destruct (type =? "__proto__")%string; [done|].
    by destruct (orb (type =? "__defineGetter__") (type =? "__defineSetter__"))%string.
Qed.

Lemma run_counter t calls : ∀ f nc,
  t ≠ "" → t ≠ "toString" → nc !! t = Some f →
  ∃ f', (run calls nc).2 !! t = Some f' ∧ same_closure f' f ∧
        id f' = (id f + created t calls)%N.
Proof.
  induction calls as [|[type position] rest IH]; intros f nc Hne Hts Hf.
  - exists f. split_and!; [done|done|]. unfold created. cbn. lia.
  - cbn [run].
    destruct (createNode_counter t f type position nc Hne Hts Hf)
      as (f1 & Hf1 & Hs1 & Hid1).
    destruct (createNode type position nc) as [c nc1]. cbn [snd] in Hf1.
    destruct (IH f1 nc1 Hne Hts Hf1) as (f2 & Hf2 & Hs2 & Hid2).
    destruct (run rest nc1) as [cs nc2]. cbn [snd] in *.
    exists f2. split_and!; [done| |].
    + destruct Hs1 as (?&?&?), Hs2 as (?&?&?). split_and!; congruence.
    + rewrite Hid2, Hid1. unfold created. cbn [List.filter].
      destruct (creates t (type, position)); cbn [length]; lia.
Qed.

(** X4: after any sequence of [createNode] calls, the node created next
    for a supported type [t] gets the id [t_n], where [n] is one more
    than the number of earlier calls that passed both guards with the
    type [t]: calls that throw and calls for other types use up no id
    of [t]. *)
Theorem next_id_counts_own_creations t calls position :
  t = MSG ∨ t = SEL → t ≠ "" → t ≠ "toString" → truthy position = true →
  ∃ node,
    (createNode (Some t) position (run calls loaded).2).1 = Return node ∧
    get node "id" = VString (t +:+ "_" +:+ toString (1 + created t calls)).
Proof.
  intros Ht Hne Hts Hp.
  destruct (reachable_supported MSG SEL loaded t (reachable_init _ _) Ht)
    as (f0 & Hf0 & Hid0).
  assert (id f0 = 1%N) as Hone.
  { apply nodeCreator_lookup in Hf0 as [[_ ->]|(_ & _ & ->)]; done. }
  destruct (run_counter t calls f0 loaded Hne Hts Hf0) as (f & Hf & (Hi & _) & Hid).
  rewrite (createNode_own _ _ _ position Hf Hne Hp). cbn.
  eexists. split; [done|]. cbn. by rewrite Hi, Hid0, Hid, Hone.
Qed.

(** X5: calls of [createNode] never add a key to the registry nor remove
    one: in every state they lead to, the own keys of [nodeCreator] are
    the two identifiers, each closure still carries the identifier it is
    registered under, and its counter is at least 1. *)
Theorem registry_keys_invariant nc :
  reachable MSG SEL nc →
  dom nc = ({[ MSG ]} ∪ {[ SEL ]} : gset string) ∧
  ∀ k f, nc !! k = Some f → identifier f = k ∧ (1 ≤ id f)%N.
Proof.
  intros Hnc. split.
  - apply set_eq. intros k. rewrite elem_of_dom, elem_of_union, !elem_of_singleton.
    pose proof (reachable_lookup _ _ nc k Hnc) as H.
    destruct (nc !! k) as [f|].
    + split; [|by eauto]. intros _. destruct H as [[-> _]|[-> _]]; auto.
    + split; [by intros [? ?]|]. by intros [-> | ->]; destruct H.
  - intros k f Hf. split.
    { pose proof (reachable_lookup _ _ nc k Hnc) as H. rewrite Hf in H.
      destruct H as [[-> (E & _)]|(-> & _ & (E & _))]; by rewrite E. }
    revert k f Hf. induction Hnc as [|type position nc Hnc IH]; intros k f Hf.
    + apply nodeCreator_lookup in Hf as [[_ ->]|(_ & _ & ->)]; cbn; lia.
    + destruct (createNode_cases type position nc) as [(key & g & q & Hg & E)|[E _]].
      * rewrite E in Hf. unfold call in Hf. cbn in Hf.
        rewrite lookup_insert in Hf. case_decide.
        -- injection Hf as <-. cbn. specialize (IH _ _ Hg). lia.
        -- by eapply IH.
      * rewrite E in Hf. by eapply IH.
Qed.

(** X6: in every reachable state, for a type that is not a name inherited
    from [Object.prototype], [createNode] returns a value only if the
    type is one of the two identifiers and the position is truthy, and
    the value is then the record built by the closure registered under
    that type, with the type and the position given; the closure's
    counter is the only thing that changes. *)
Theorem createNode_returned_values type position nc v nc' :
  reachable MSG SEL nc → type ∉ objectPrototype →
  createNode (Some type) position nc = (Return v, nc') →
  (type = MSG ∨ type = SEL) ∧ truthy position = true ∧
  ∃ f, nc !! type = Some f ∧
       v = (create f position).1 ∧ nc' = <[type := (create f position).2]> nc ∧
       get v "type" = VString type ∧ get v "position" = position.
Proof.
  intros Hnc Hin.
  pose proof (reachable_lookup _ _ nc type Hnc) as Htype.
  unfold createNode.
  destruct (type =? "")%string; [done|].
  destruct (truthy position); cbn [negb]; [|done].
  unfold getProperty.
  destruct (nc !! type) as [f|] eqn:Hf; cbn.
  - intros [= <- <-]. split_and!; [|done|].
    + destruct Htype as [[-> _]|[-> _]]; auto.
    + exists f. split_and!; try done. cbn.
      destruct Htype as [[-> (E & _)]|(-> & _ & (E & _))]; by rewrite E.
  - by rewrite bool_decide_eq_false_2.
Qed.

End Counters.

(** ** Drops that add nothing, and ids in the store *)

Section Drops.

Variables MESSAGE_NODE_IDENTIFIER SELECT_NODE_IDENTIFIER : string.
Variables DATA_TRANSFER_TYPE DATA_TRANSFER_MIME_TYPE : string.
Variable project : value → value.
Variable minus : value → value → value.

Local Abbreviation MSG := MESSAGE_NODE_IDENTIFIER.
Local Abbreviation SEL := SELECT_NODE_IDENTIFIER.
Local Abbreviation loaded := (nodeCreator MSG SEL).
Local Abbreviation reachable' := (reachable MSG SEL).
Local Abbreviation evolved' := (evolved MSG SEL).
Local Abbreviation onDrop' := (onDrop DATA_TRANSFER_TYPE project minus).
Local Abbreviation onDrop_mime' := (onDrop_mime DATA_TRANSFER_MIME_TYPE project minus).
Local Abbreviation drops' := (drops DATA_TRANSFER_TYPE project minus).

(** [project] of the graph library returns a position object. *)
Hypothesis project_object : ∀ p, ∃ fields, project p = VObject fields.

(** X7: a drop whose data transfer holds nothing, or the empty string,
    for the format that [onDrop] reads is ignored: the handler returns
    before it creates anything, and the store and all counters stay as
    they were.  This holds in both revisions of [Flow]. *)
Theorem onDrop_without_type event bounds app :
  (items (dataTransfer event) !! DATA_TRANSFER_TYPE = None ∨
   items (dataTransfer event) !! DATA_TRANSFER_TYPE = Some "" →
   onDrop DATA_TRANSFER_TYPE project minus event bounds app = Handled app) ∧
  (items (dataTransfer event) !! DATA_TRANSFER_MIME_TYPE = None ∨
   items (dataTransfer event) !! DATA_TRANSFER_MIME_TYPE = Some "" →
   onDrop_mime DATA_TRANSFER_MIME_TYPE project minus event bounds app = Handled app).
Proof.
  split; intros H.
  - unfold onDrop, getData. by destruct H as [H|H]; rewrite H.
  - unfold onDrop_mime, getData. by destruct H as [H|H]; rewrite H.
Qed.

(** X8: a drop that carries a non-empty type which is neither one of the
    two identifiers nor a name inherited from [Object.prototype] ends in
    the error [Node type: <type> is not supported]; nothing is added to
    the store and no counter moves. *)
Theorem onDrop_unsupported_type type event bounds app :
  reachable' (registry app) →
  getData DATA_TRANSFER_TYPE (dataTransfer event) = type →
  type ≠ "" → type ≠ MSG → type ≠ SEL → type ∉ objectPrototype →
  onDrop' event bounds app
    = Raised (Error ("Node type: " +:+ type +:+ " is not supported")) app.
Proof.
  intros Hnc Hget Hne Hm Hs Hin.
  pose proof (reachable_lookup _ _ _ type Hnc) as H.
  destruct (registry app !! type) as [f|] eqn:Hf.
  { by destruct H as [[? _]|[? _]]. }
  unfold onDrop. rewrite Hget. cbn [truthy].
  apply String.eqb_neq in Hne as Hne'. rewrite Hne'. cbn [negb].
  unfold dropNode, createNode, getProperty. rewrite Hne', Hf.
  rewrite bool_decide_eq_false_2 by done.
  unfold dropPosition.
  destruct (project_object (VObject
    [("x", minus (clientX event) (left bounds));
     ("y", minus (clientY event) (top bounds))])) as [fields ->].
  cbn. by destruct app.
Qed.

(** One drop keeps the ids in the store distinct and below the counters
    that issued them. *)
Lemma onDrop_fresh event bounds app app' :
  evolved' (registry app) →
  issued (registry app) (storedIds (store app)) →
  NoDup (storedIds (store app)) →
  onDrop' event bounds app = Handled app' ∨
    (∃ e, onDrop' event bounds app = Raised e app') →
  evolved' (registry app') ∧
  issued (registry app') (storedIds (store app')) ∧
  NoDup (storedIds (store app')).
Proof.
  intros Hev Hiss Hnd. unfold onDrop.
  destruct (negb (truthy _)).
  { by intros [[= <-]|[e [=]]]. }
  unfold dropNode.
  destruct (createNode_cases (Some (getData DATA_TRANSFER_TYPE (dataTransfer event)))
              (dropPosition project minus event bounds) (registry app))
    as [(k & f & q & Hf & E)|[E1 E2]].
  - rewrite E.
    destruct (call_fresh MSG SEL _ _ k f q Hev Hiss Hnd Hf) as (s & Hs & Hnd' & Hiss').
    pose proof (evolved_call MSG SEL _ k f q Hev Hf) as Hev'.
    unfold call in *. cbn in *.
    intros [[= <-]|[e [=]]]. cbn.
    unfold storedIds, addNode. cbn [nodes]. rewrite omap_app. cbn.
    injection Hs as <-. done.
  - destruct (createNode _ _ _) as [[v|e|member] nc1]; cbn in E1, E2; subst nc1.
    + intros [[= <-]|[e [=]]]. cbn.
      unfold storedIds, addNode. cbn [nodes]. rewrite omap_app. cbn.
      unfold idOf. destruct (get v "id"); try discriminate; by rewrite app_nil_r.
    + intros [[=]|[e' [= <- <-]]]. done.
    + by intros [[=]|[e' [=]]].
Qed.

(** One drop whose payload is no inherited name ends in the embedded
    code and stores nothing but node records with an id. *)
Lemma onDrop_stores_records event bounds app :
  getData DATA_TRANSFER_TYPE (dataTransfer event) ∉ objectPrototype →
  Forall (λ node, is_Some (idOf node)) (nodes (store app)) →
  ∃ app',
    (onDrop' event bounds app = Handled app' ∨
     ∃ e, onDrop' event bounds app = Raised e app') ∧
    Forall (λ node, is_Some (idOf node)) (nodes (store app')).
Proof.
  intros Hin Hrec. unfold onDrop. cbn [truthy].
  destruct (getData DATA_TRANSFER_TYPE (dataTransfer event) =? "")%string eqn:Ht;
    cbn [negb].
  { exists app. eauto. }
  unfold dropNode, createNode. rewrite Ht.
  destruct (negb (truthy _)).
  { eexists. split; [right; eauto|done]. }
  unfold getProperty.
  destruct (registry app !! _) as [f|]; cbn.
  - eexists. split; [left; done|]. cbn.
    apply Forall_app. split; [done|]. apply Forall_singleton. by eexists.
  - rewrite bool_decide_eq_false_2 by done.
    eexists. split; [right; eauto|done].
Qed.

Lemma drops_fresh events : ∀ app,
  evolved' (registry app) →
  issued (registry app) (storedIds (store app)) →
  NoDup (storedIds (store app)) →
  Forall (λ node, is_Some (idOf node)) (nodes (store app)) →
  Forall (λ ev : DragEvent * DOMRect,
            getData DATA_TRANSFER_TYPE (dataTransfer ev.1) ∉ objectPrototype) events →
  ∃ app', drops' events app = Some app' ∧
          Forall (λ node, is_Some (idOf node)) (nodes (store app')) ∧
          NoDup (storedIds (store app')).
Proof.
  induction events as [|[event bounds] rest IH]; intros app Hev Hiss Hnd Hrec Hin.
  - by exists app.
  - apply Forall_cons in Hin as [Hin Hrest]. cbn [fst] in Hin.
    destruct (onDrop_stores_records event bounds app Hin Hrec) as (app1 & Hd & Hrec1).
    destruct (onDrop_fresh event bounds app app1 Hev Hiss Hnd Hd) as (Hev1 & Hiss1 & Hnd1).
    cbn [drops].
    destruct Hd as [Hd|[e Hd]]; rewrite Hd; by apply IH.
Qed.

(** X9: starting from the loaded module and a store without nodes, after
    any sequence of drops none of which carries a name inherited from
    [Object.prototype] (node types, other types and empty payloads, in
    any order), every value that [onDrop] has added to the store is a
    record with an id, and these ids are pairwise distinct (with
    [addNode] appending). *)
Theorem dropped_nodes_have_distinct_ids events app :
  registry app = loaded → nodes (store app) = [] →
  Forall (λ ev : DragEvent * DOMRect,
            getData DATA_TRANSFER_TYPE (dataTransfer ev.1) ∉ objectPrototype) events →
  ∃ app', drops DATA_TRANSFER_TYPE project minus events app = Some app' ∧
          Forall (λ node, is_Some (idOf node)) (nodes (store app')) ∧
          NoDup (storedIds (store app')).
Proof.
  intros Hreg Hnodes. apply drops_fresh.
  - rewrite Hreg. apply reachable_evolved, reachable_init.
  - unfold storedIds. rewrite Hnodes. by intros s ?%elem_of_nil.
  - unfold storedIds. rewrite Hnodes. apply NoDup_nil_2.
  - by rewrite Hnodes.
Qed.

End Drops.

(** ** Instances of the further properties *)

Lemma createNode_failure_keeps_counters_witness :
  createNode (Some "imageNode") examplePosition exampleRegistry
    = (Throw (Error "Node type: imageNode is not supported"),
       (createNode (Some "imageNode") examplePosition exampleRegistry).2) ∧
  (∀ v, Throw (Error "Node type: imageNode is not supported") ≠ Return v) ∧
  (createNode (Some "imageNode") examplePosition exampleRegistry).2 = exampleRegistry.
Proof.
  split_and!; [vm_compute; reflexivity|done|].
  apply (createNode_failure_keeps_counters (Some "imageNode") examplePosition
           exampleRegistry (Throw (Error "Node type: imageNode is not supported")));
    [vm_compute; reflexivity|done].
Defined.

Lemma next_id_counts_own_creations_witness :
  ("messageNode" = "messageNode" ∨ "messageNode" = "selectNode") ∧
  "messageNode" ≠ "" ∧ "messageNode" ≠ "toString" ∧
  truthy examplePosition = true ∧
  created "messageNode" exampleCalls = 2%N ∧
  ∃ node,
    (createNode (Some "messageNode") examplePosition
       (run exampleCalls exampleRegistry).2).1 = Return node ∧
    get node "id" = VString "messageNode_3".
Proof.
  split_and!; [by left|done|done|reflexivity|reflexivity|].
  destruct (next_id_counts_own_creations "messageNode" "selectNode" "messageNode"
              exampleCalls examplePosition) as (node & Hnode & Hid);
    [by left|done|done|reflexivity|].
  exists node. split; [exact Hnode|exact Hid].
Defined.

Lemma registry_keys_invariant_witness :
  reachable "messageNode" "selectNode" (run exampleCalls exampleRegistry).2 ∧
  dom (run exampleCalls exampleRegistry).2
    = ({[ "messageNode" ]} ∪ {[ "selectNode" ]} : gset string) ∧
  ∀ k f, (run exampleCalls exampleRegistry).2 !! k = Some f →
         identifier f = k ∧ (1 ≤ id f)%N.
Proof.
  assert (reachable "messageNode" "selectNode" (run exampleCalls exampleRegistry).2)
    as Hnc by apply run_reachable, reachable_init.
  split; [exact Hnc|].
  apply (registry_keys_invariant "messageNode" "selectNode" _ Hnc).
Defined.

Lemma createNode_returned_values_witness :
  reachable "messageNode" "selectNode" exampleRegistry ∧
  ("messageNode" ∉ objectPrototype) ∧
  createNode (Some "messageNode") examplePosition exampleRegistry
    = (Return exampleMessageNode,
       (createNode (Some "messageNode") examplePosition exampleRegistry).2) ∧
  ("messageNode" = "messageNode" ∨ "messageNode" = "selectNode") ∧
  truthy examplePosition = true ∧
  ∃ f, exampleRegistry !! "messageNode" = Some f ∧
       exampleMessageNode = (create f examplePosition).1 ∧
       (createNode (Some "messageNode") examplePosition exampleRegistry).2
         = <["messageNode" := (create f examplePosition).2]> exampleRegistry ∧
       get exampleMessageNode "type" = VString "messageNode" ∧
       get exampleMessageNode "position" = examplePosition.
Proof.
  assert ("messageNode" ∉ objectPrototype) as Hin
    by (apply (bool_decide_eq_false_1 ("messageNode" ∈ objectPrototype)); reflexivity).
  split_and!; [constructor|exact Hin|vm_compute; reflexivity|..];
    apply (createNode_returned_values "messageNode" "selectNode" "messageNode"
             examplePosition exampleRegistry exampleMessageNode
             (createNode (Some "messageNode") examplePosition exampleRegistry).2);
    first [constructor|exact Hin|vm_compute; reflexivity].
Defined.

Lemma onDrop_without_type_witness :
  items (dataTransfer exampleStart) !! "application/reactflow" = None ∧
  onDrop "application/reactflow" exampleProject exampleMinus
    exampleStart exampleBounds exampleApp = Handled exampleApp ∧
  onDrop_mime "application/reactflow" exampleProject exampleMinus
    exampleStart exampleBounds exampleApp = Handled exampleApp.
Proof.
  destruct (onDrop_without_type "application/reactflow" "application/reactflow"
              exampleProject exampleMinus exampleStart exampleBounds exampleApp)
    as [H1 H2].
  split_and!; [reflexivity|apply H1; by left|apply H2; by left].
Defined.

Lemma onDrop_unsupported_type_witness :
  (∀ p, ∃ fields, exampleProject p = VObject fields) ∧
  reachable "messageNode" "selectNode" (registry exampleApp) ∧
  getData "application/reactflow" (dataTransfer exampleForeignDrop) = "imageNode" ∧
  "imageNode" ≠ "" ∧ "imageNode" ≠ "messageNode" ∧ "imageNode" ≠ "selectNode" ∧
  ("imageNode" ∉ objectPrototype) ∧
  onDrop "application/reactflow" exampleProject exampleMinus
    exampleForeignDrop exampleBounds exampleApp
    = Raised (Error "Node type: imageNode is not supported") exampleApp.
Proof.
  assert ("imageNode" ∉ objectPrototype) as Hin
    by (apply (bool_decide_eq_false_1 ("imageNode" ∈ objectPrototype)); reflexivity).
  split_and!; [apply exampleProject_object|constructor|reflexivity|done|done|done|exact Hin|].
  apply (onDrop_unsupported_type "messageNode" "selectNode" "application/reactflow"
           exampleProject exampleMinus exampleProject_object "imageNode"
           exampleForeignDrop exampleBounds exampleApp);
    [constructor|reflexivity|done|done|done|exact Hin].
Defined.

Lemma dropped_nodes_have_distinct_ids_witness :
  registry exampleApp = nodeCreator "messageNode" "selectNode" ∧
  nodes (store exampleApp) = [] ∧
  Forall (λ ev : DragEvent * DOMRect,
            getData "application/reactflow" (dataTransfer ev.1) ∉ objectPrototype)
    exampleDrops ∧
  ∃ app',
    drops "application/reactflow" exampleProject exampleMinus exampleDrops exampleApp
      = Some app' ∧
    storedIds (store app') = ["messageNode_1"; "messageNode_2"] ∧
    Forall (λ node, is_Some (idOf node)) (nodes (store app')) ∧
    NoDup (storedIds (store app')).
Proof.
  assert (Forall (λ ev : DragEvent * DOMRect,
            getData "application/reactflow" (dataTransfer ev.1) ∉ objectPrototype)
            exampleDrops) as Hin.
  { repeat constructor;
      match goal with
      | |- ?x ∉ _ => apply (bool_decide_eq_false_1 (x ∈ objectPrototype)); reflexivity
      end. }
  split_and!; [reflexivity|reflexivity|exact Hin|].
  destruct (dropped_nodes_have_distinct_ids "messageNode" "selectNode"
              "application/reactflow" exampleProject exampleMinus
              exampleDrops exampleApp eq_refl eq_refl Hin)
    as (app' & Hdrops & Hrec & Hnd).
  exists app'. split_and!; [exact Hdrops| |exact Hrec|exact Hnd].
  vm_compute in Hdrops. injection Hdrops as <-. reflexivity.
Defined.
